(** * HD44780 character LCD behind a PCF8574 I2C expander: the STM32 driver

    Shallow embedding of [Core/Inc/LCD_I2C.h] and [Core/Src/LCD_I2C.c].

    The driver is a set of [void] C functions that talk to two HAL
    collaborators, [HAL_I2C_Master_Transmit] and [HAL_Delay].  The calls
    they make are recorded as a trace of events; the status the bus
    returns for a transmission is chosen by a bus oracle the driver
    cannot inspect. *)

From Stdlib Require Import ZArith List Bool Lia.
Import ListNotations.
Local Open Scope Z_scope.

(** ** C integer types used by the driver *)

Module CTypes.

(** Plain [char] is 8 bits wide; whether it is signed is left to the
    ABI (the ARM EABI of the STM32 makes it unsigned).  The flag is kept
    as a parameter of the whole driver: [true] means a signed [char]. *)
Definition to_char (char_signed : bool) (z : Z) : Z :=
  let m := z mod 256 in
  if char_signed then (if m <? 128 then m else m - 256) else m.

(** Conversion to [uint8_t]: reduction modulo 2^8. *)
Definition to_uint8 (z : Z) : Z := z mod 256.

End CTypes.
Export CTypes.

(** ** The HAL collaborators *)

Module HAL.

(** [HAL_StatusTypeDef] of stm32f4xx_hal_def.h. *)
Inductive HAL_StatusTypeDef : Type :=
| HAL_OK
| HAL_ERROR
| HAL_BUSY
| HAL_TIMEOUT.

(** One call of a collaborator.  A transmission records the device
    address, the bytes read from the buffer, the size and the timeout
    passed, and the status the bus answered with. *)
Inductive event : Type :=
| EvTransmit (DevAddress : Z) (pData : list Z) (Size : Z) (Timeout : Z)
             (status : HAL_StatusTypeDef)
| EvDelay (Delay : Z).

(** The bus oracle: from the events so far and the arguments of the
    transmission, the status it reports. *)
Definition Bus : Type :=
  list event -> Z -> list Z -> Z -> Z -> HAL_StatusTypeDef.

(** A computation runs against a bus and the history of earlier events.
    It yields the events it emits itself, and a result; the result is
    [None] when the model has no result to give (a read outside the
    modelled memory, or a loop that ran out of fuel). *)
Definition M (A : Type) : Type := Bus -> list event -> option A * list event.

Definition ret {A} (a : A) : M A := fun _ _ => (Some a, []).

Definition bind {A B} (m : M A) (k : A -> M B) : M B :=
  fun bus h =>
    match m bus h with
    | (None, e1) => (None, e1)
    | (Some a, e1) =>
        let '(b, e2) := k a bus (h ++ e1) in (b, e1 ++ e2)
    end.

(** No result: the model stops here. *)
Definition stuck {A} : M A := fun _ _ => (None, []).

(** [HAL_I2C_Master_Transmit(&hi2c2, DevAddress, pData, Size, Timeout)].
    The handle [hi2c2] is the one bus of the board and stays implicit;
    [pData] is the content of the buffer passed, whose [Size] bytes the
    HAL reads. *)
Definition HAL_I2C_Master_Transmit
    (DevAddress : Z) (pData : list Z) (Size : Z) (Timeout : Z)
  : M HAL_StatusTypeDef :=
  fun bus h =>
    let st := bus h DevAddress pData Size Timeout in
    (Some st, [EvTransmit DevAddress pData Size Timeout st]).

Definition HAL_Delay (Delay : Z) : M unit :=
  fun _ _ => (Some tt, [EvDelay Delay]).

End HAL.
Export HAL.

Notation "x <- m ;; k" := (bind m (fun x => k))
  (at level 61, m at next level, right associativity).
Notation "m ;; k" := (bind m (fun _ => k))
  (at level 61, right associativity).

(** ** Constants of LCD_I2C.h *)

Definition SLAVE_ADDRESS_LCD : Z := 0x4E.
Definition LCD_BUFFER_SIZE : Z := 4.
Definition UPPER_BITS_MASK : Z := 0xF0.
Definition TIMEOUT : Z := 100.
Definition EN_BIT_MASK : Z := 0x0C.
Definition RS_EN_OFF_MASK : Z := 0x08.
Definition RS_EN_ON_MASK : Z := 0x0D.
Definition RS_BIT_MASK : Z := 0x09.
Definition LCD_CURSOR_ROW_FIRST : Z := 0x80.
Definition LCD_CURSOR_ROW_SECOND : Z := 0xC0.
Definition LCD_CLEAR_ROW_LENGTH : Z := 16.
Definition DELAY_50MS : Z := 40.
Definition DELAY_5MS : Z := 5.
Definition DELAY_1MS : Z := 1.
Definition DELAY_10MS : Z := 10.
Definition LCD_INIT_CMD_8BIT : Z := 0x30.
Definition LCD_INIT_CMD_4BIT : Z := 0x20.
Definition LCD_INIT_CMD_FUNCTION_SET : Z := 0x28.
Definition LCD_INIT_CMD_DISPLAY_OFF : Z := 0x08.
Definition LCD_INIT_CMD_CLEAR_DISPLAY : Z := 0x01.
Definition LCD_INIT_CMD_ENTRY_MODE_SET : Z := 0x06.
Definition LCD_INIT_CMD_DISPLAY_ON : Z := 0x0C.
Definition LCD_MOVE_RIGHT : Z := 0x1C.
Definition LCD_MOVE_LEFT : Z := 0x18.

(** ** The driver, LCD_I2C.c *)

Section Driver.

(** Signedness of plain [char] on the target. *)
Variable char_signed : bool.

Let char_of := to_char char_signed.

(** [void LCD_SEND_CMD(char cmd)].  The argument is converted to [char]
    on entry; [&], [<<] and [|] are computed on the promoted [int]
    values; the assignments to the [char] locals and the stores to the
    [uint8_t] buffer convert back.  The status returned by the bus is
    dropped. *)
Definition LCD_SEND_CMD (cmd : Z) : M unit :=
  let cmd := char_of cmd in
  let upper_data := char_of (Z.land cmd UPPER_BITS_MASK) in
  let lower_data :=
    char_of (Z.land (Z.shiftl cmd LCD_BUFFER_SIZE) UPPER_BITS_MASK) in
  let lcd_Buffer :=
    [ to_uint8 (Z.lor upper_data EN_BIT_MASK);
      to_uint8 (Z.lor upper_data RS_EN_OFF_MASK);
      to_uint8 (Z.lor lower_data EN_BIT_MASK);
      to_uint8 (Z.lor lower_data RS_EN_OFF_MASK) ] in
  _ <- HAL_I2C_Master_Transmit SLAVE_ADDRESS_LCD lcd_Buffer
         LCD_BUFFER_SIZE TIMEOUT ;;
  ret tt.

(** [void LCD_SEND_DATA(char data)]. *)
Definition LCD_SEND_DATA (data : Z) : M unit :=
  let data := char_of data in
  let upper_data := char_of (Z.land data UPPER_BITS_MASK) in
  let lower_data :=
    char_of (Z.land (Z.shiftl data LCD_BUFFER_SIZE) UPPER_BITS_MASK) in
  let lcd_Buffer :=
    [ to_uint8 (Z.lor upper_data RS_EN_ON_MASK);
      to_uint8 (Z.lor upper_data RS_BIT_MASK);
      to_uint8 (Z.lor lower_data RS_EN_ON_MASK);
      to_uint8 (Z.lor lower_data RS_BIT_MASK) ] in
  _ <- HAL_I2C_Master_Transmit SLAVE_ADDRESS_LCD lcd_Buffer
         LCD_BUFFER_SIZE TIMEOUT ;;
  ret tt.

(** The character constant [' '] of [LCD_CLEAR]. *)
Definition SPACE : Z := 32.

(** The [for] loop of [LCD_CLEAR]: [for (char i = ..; i < 16; i++)].
    The counter is a [char], so [i++] converts back to [char].  Fuel
    bounds the number of tests of the loop condition. *)
Fixpoint LCD_CLEAR_loop (fuel : nat) (i : Z) : M unit :=
  match fuel with
  | O => stuck
  | S fuel' =>
      if i <? LCD_CLEAR_ROW_LENGTH
      then LCD_SEND_DATA SPACE ;; LCD_CLEAR_loop fuel' (char_of (i + 1))
      else ret tt
  end.

(** [void LCD_CLEAR(void)].  Seventeen tests of the loop condition are
    what a counter going from 0 to 16 needs. *)
Definition LCD_CLEAR_fuel : nat := S (Z.to_nat LCD_CLEAR_ROW_LENGTH).

Definition LCD_CLEAR : M unit :=
  LCD_SEND_CMD LCD_CURSOR_ROW_FIRST ;;
  LCD_CLEAR_loop LCD_CLEAR_fuel 0.

(** [void LCD_SET_CURSOR(int row, int col)].  The [switch] has cases 0
    and 1 only and no default.  [col | 0x80] and [col | 0xC0] stay in the
    range of [int] whenever [col] is, so no wrap-around is written. *)
Definition LCD_SET_CURSOR (row col : Z) : M unit :=
  let col :=
    if row =? 0 then Z.lor col LCD_CURSOR_ROW_FIRST
    else if row =? 1 then Z.lor col LCD_CURSOR_ROW_SECOND
    else col in
  LCD_SEND_CMD col.

(** [void LCD_INIT(void)]. *)
Definition LCD_INIT : M unit :=
  HAL_Delay DELAY_50MS ;;
  LCD_SEND_CMD LCD_INIT_CMD_8BIT ;;
  HAL_Delay DELAY_5MS ;;
  LCD_SEND_CMD LCD_INIT_CMD_8BIT ;;
  HAL_Delay DELAY_1MS ;;
  LCD_SEND_CMD LCD_INIT_CMD_8BIT ;;
  HAL_Delay DELAY_10MS ;;
  LCD_SEND_CMD LCD_INIT_CMD_4BIT ;;
  HAL_Delay DELAY_10MS ;;
  LCD_SEND_CMD LCD_INIT_CMD_FUNCTION_SET ;;
  HAL_Delay DELAY_1MS ;;
  LCD_SEND_CMD LCD_INIT_CMD_DISPLAY_OFF ;;
  HAL_Delay DELAY_1MS ;;
  LCD_SEND_CMD LCD_INIT_CMD_CLEAR_DISPLAY ;;
  HAL_Delay DELAY_1MS ;;
  HAL_Delay DELAY_1MS ;;
  LCD_SEND_CMD LCD_INIT_CMD_ENTRY_MODE_SET ;;
  HAL_Delay DELAY_1MS ;;
  LCD_SEND_CMD LCD_INIT_CMD_DISPLAY_ON.

(** [void LCD_SEND_STRING(char *str)]: while the cell [str] points to is
    not zero, pass it to [LCD_SEND_DATA] and advance [str] by one.
    The argument is the memory from [str] on, one [char] per cell.
    Reading past the modelled cells gives no result. *)
Fixpoint LCD_SEND_STRING (str : list Z) : M unit :=
  match str with
  | [] => stuck
  | c :: str' =>
      if c =? 0 then ret tt
      else LCD_SEND_DATA c ;; LCD_SEND_STRING str'
  end.

(** [void LCD_SCROLL_LEFT(void)]. *)
Definition LCD_SCROLL_LEFT : M unit := LCD_SEND_CMD LCD_MOVE_LEFT.

(** [void LCD_SCROLL_RIGHT(void)]. *)
Definition LCD_SCROLL_RIGHT : M unit := LCD_SEND_CMD LCD_MOVE_RIGHT.

End Driver.

(** ** What an observer of the bus sees *)

(** A call as issued by the driver: an event without the answer of the
    bus. *)
Inductive call : Type :=
| CallTransmit (DevAddress : Z) (pData : list Z) (Size : Z) (Timeout : Z)
| CallDelay (Delay : Z).

Definition call_of (e : event) : call :=
  match e with
  | EvTransmit a d n t _ => CallTransmit a d n t
  | EvDelay ms => CallDelay ms
  end.

(** The calls a run issued, in order. *)
Definition calls {A} (r : option A * list event) : list call :=
  map call_of (snd r).

(** The transmissions among them, and the waits among them. *)
Definition is_transmit (c : call) : bool :=
  match c with CallTransmit _ _ _ _ => true | CallDelay _ => false end.

Definition transmissions {A} (r : option A * list event) : list call :=
  filter is_transmit (calls r).

Fixpoint delays_of (cs : list call) : list Z :=
  match cs with
  | [] => []
  | CallDelay ms :: cs' => ms :: delays_of cs'
  | CallTransmit _ _ _ _ :: cs' => delays_of cs'
  end.

Definition waits {A} (r : option A * list event) : list Z :=
  delays_of (calls r).

(** Whether the bus answered a transmission with anything but [HAL_OK]. *)
Definition failed (e : event) : bool :=
  match e with
  | EvTransmit _ _ _ _ HAL_OK => false
  | EvTransmit _ _ _ _ _ => true
  | EvDelay _ => false
  end.

(** What the caller of a [void] function gets back, and the calls that
    were issued: all there is to observe of a run. *)
Definition outcome {A} (r : option A * list event) : option A * list call :=
  (fst r, calls r).

(** A bus that answers every transmission with the same status. *)
Definition bus_always (st : HAL_StatusTypeDef) : Bus := fun _ _ _ _ _ => st.

(** A bus that answers [st] to the transmission number [n] (from 0) and
    [HAL_OK] to every other one. *)
Definition bus_failing_at (n : nat) (st : HAL_StatusTypeDef) : Bus :=
  fun h _ _ _ _ =>
    if Nat.eqb (length (filter is_transmit (map call_of h))) n
    then st else HAL_OK.

(** ** The frames as the specification words them

    These definitions follow section 8 of the specification, not the
    code: upper = (b & 0xF0), lower = ((b << 4) & 0xF0), framed with the
    control masks 0x0C, 0x08 for a command and 0x0D, 0x09 for data. *)

Definition upper_nibble (b : Z) : Z := Z.land b 0xF0.
Definition lower_nibble (b : Z) : Z := Z.land (Z.shiftl b 4) 0xF0.

Definition spec_command_frame (b : Z) : list Z :=
  [ Z.lor (upper_nibble b) 0x0C; Z.lor (upper_nibble b) 0x08;
    Z.lor (lower_nibble b) 0x0C; Z.lor (lower_nibble b) 0x08 ].

Definition spec_data_frame (b : Z) : list Z :=
  [ Z.lor (upper_nibble b) 0x0D; Z.lor (upper_nibble b) 0x09;
    Z.lor (lower_nibble b) 0x0D; Z.lor (lower_nibble b) 0x09 ].

(** One command, or one data byte, on the bus: a single transmission of
    its frame to the device, four bytes long, with the driver's timeout. *)
Definition cmd_call (b : Z) : call :=
  CallTransmit 0x4E (spec_command_frame b) 4 100.
Definition data_call (b : Z) : call :=
  CallTransmit 0x4E (spec_data_frame b) 4 100.

(** The control mask each slot of a frame carries. *)
Definition command_masks : list Z := [0x0C; 0x08; 0x0C; 0x08].
Definition data_masks : list Z := [0x0D; 0x09; 0x0D; 0x09].

(** The payload nibble each slot of a frame carries. *)
Definition payload_nibbles (b : Z) : list Z :=
  [upper_nibble b; upper_nibble b; lower_nibble b; lower_nibble b].

(** A frame byte whose low four bits are exactly the mask and whose high
    four bits are exactly the nibble. *)
Definition slot_ok (x : Z) (slot : Z * Z) : Prop :=
  Z.land x 0x0F = snd slot /\ Z.land x 0xF0 = fst slot.

(** The frames of the transmissions of a run. *)
Fixpoint frames_of (evs : list event) : list (list Z) :=
  match evs with
  | [] => []
  | EvTransmit _ d _ _ _ :: evs' => d :: frames_of evs'
  | EvDelay _ :: evs' => frames_of evs'
  end.

(** The enable line is bit 2 of an expander byte, register select is
    bit 0. *)
Definition EN (x : Z) : bool := Z.testbit x 2.
Definition RS (x : Z) : bool := Z.testbit x 0.

(** The data lines of the controller are bits 4 to 7 of an expander
    byte. *)
Definition data_lines (x : Z) : Z := Z.land x 0xF0.

(** The expander drives the lines of the controller with each byte it
    receives, one after the other.  The controller latches the nibble on
    its data lines, with register select, when enable falls: between a
    byte with enable high and the next byte with enable low.  The lines
    have to hold across the edge: the two bytes carry the same nibble and
    the same register select, or nothing can be said of what is latched.
    [prev] is the byte on the lines before [bytes]. *)
Fixpoint falling_edges (prev : Z) (bytes : list Z)
  : option (list (bool * Z)) :=
  match bytes with
  | [] => Some []
  | x :: rest =>
      match falling_edges x rest with
      | None => None
      | Some latched =>
          if EN prev && negb (EN x)
          then
            if (data_lines prev =? data_lines x) && Bool.eqb (RS prev) (RS x)
            then Some ((RS x, data_lines x) :: latched)
            else None
          else Some latched
      end
  end.

(** What a controller in 4-bit mode reads from a frame sent while enable
    is low: the frame has to make enable fall exactly twice, with the same
    register select; the first nibble latched is the high half of the
    byte, the second its low half. *)
Definition frame_payload (f : list Z) : option (bool * Z) :=
  match falling_edges 0 f with
  | Some [(rs_hi, hi); (rs_lo, lo)] =>
      if Bool.eqb rs_hi rs_lo
      then Some (rs_hi, Z.lor hi (Z.shiftr lo 4))
      else None
  | _ => None
  end.

Definition is_byte (x : Z) : bool := (0 <=? x) && (x <? 256).

(** The shape of a frame: four bytes; the same upper nibble with enable
    high then low, the same lower nibble with enable high then low. *)
Definition frame_shape (f : list Z) : bool :=
  match f with
  | [x0; x1; x2; x3] =>
      forallb is_byte f
      && EN x0 && negb (EN x1) && EN x2 && negb (EN x3)
      && (Z.land x0 0xF0 =? Z.land x1 0xF0)
      && (Z.land x2 0xF0 =? Z.land x3 0xF0)
  | _ => false
  end.

(** A well-formed event: a wait, or a transmission of a shaped frame of
    four bytes, with size 4, to the device address 0x4E. *)
Definition transmission_ok (e : event) : bool :=
  match e with
  | EvDelay _ => true
  | EvTransmit a f n _ _ =>
      (a =? 0x4E) && (n =? 4) && Nat.eqb (length f) 4 && frame_shape f
  end.

(** ** The operations of the driver, as one type *)

Inductive operation : Type :=
| OpSendCmd (cmd : Z)
| OpSendData (data : Z)
| OpClear
| OpSetCursor (row col : Z)
| OpInit
| OpSendString (str : list Z)
| OpScrollLeft
| OpScrollRight.

Definition exec (char_signed : bool) (op : operation) : M unit :=
  match op with
  | OpSendCmd cmd => LCD_SEND_CMD char_signed cmd
  | OpSendData data => LCD_SEND_DATA char_signed data
  | OpClear => LCD_CLEAR char_signed
  | OpSetCursor row col => LCD_SET_CURSOR char_signed row col
  | OpInit => LCD_INIT char_signed
  | OpSendString str => LCD_SEND_STRING char_signed str
  | OpScrollLeft => LCD_SCROLL_LEFT char_signed
  | OpScrollRight => LCD_SCROLL_RIGHT char_signed
  end.

(** An operation surfaces bus failures when its caller can tell, from what
    the operation returns, whether a transmission it issued failed. *)
Definition surfaces_failures (m : M unit) : Prop :=
  exists report : option unit -> bool,
    forall (bus : Bus) (h : list event),
      report (fst (m bus h)) = existsb failed (snd (m bus h)).

(** An operation is oblivious of the bus when neither what it returns nor
    the calls it issues depend on the answers of the bus or on the
    history. *)
Definition oblivious {A} (m : M A) : Prop :=
  forall (bus bus' : Bus) (h h' : list event),
    outcome (m bus h) = outcome (m bus' h').

(** All events a computation emits satisfy [P], whatever the bus. *)
Definition emits_only {A} (P : event -> bool) (m : M A) : Prop :=
  forall (bus : Bus) (h : list event), forallb P (snd (m bus h)) = true.

(** An operation called [n] times in a row. *)
Fixpoint times (n : nat) (m : M unit) : M unit :=
  match n with
  | O => ret tt
  | S n' => m ;; times n' m
  end.

(** Equality of frames, as a test. *)
Fixpoint frame_eqb (f g : list Z) : bool :=
  match f, g with
  | [], [] => true
  | x :: f', y :: g' => (x =? y) && frame_eqb f' g'
  | _, _ => false
  end.

(** The 256 values of a byte. *)
Definition all_bytes : list Z := map Z.of_nat (seq 0 256).

(** ** Further observations of a run *)

(** What the controller latches from a call: nothing from a wait, the
    payload of the frame from a transmission. *)
Definition decode_call (c : call) : option (bool * Z) :=
  match c with
  | CallTransmit _ f _ _ => frame_payload f
  | CallDelay _ => None
  end.

(** The timeout passed with a transmission is the driver's [TIMEOUT]. *)
Definition timeout_ok (e : event) : bool :=
  match e with
  | EvTransmit _ _ _ t _ => t =? TIMEOUT
  | EvDelay _ => true
  end.

(** Bit 3 of an expander byte is set and bit 1 is clear. *)
Definition fixed_bits_ok (x : Z) : bool :=
  Z.testbit x 3 && negb (Z.testbit x 1).

Definition fixed_bits_event (e : event) : bool :=
  match e with
  | EvTransmit _ f _ _ _ => forallb fixed_bits_ok f
  | EvDelay _ => true
  end.

(** The total wait at the head of a sequence of calls, up to its first
    transmission. *)
Fixpoint wait_before_transmit (cs : list call) : Z :=
  match cs with
  | CallDelay ms :: cs' => ms + wait_before_transmit cs'
  | _ => 0
  end.

(** For each transmission in order, the total wait between it and the
    next transmission (or the end of the calls). *)
Fixpoint settle_times (cs : list call) : list Z :=
  match cs with
  | [] => []
  | CallTransmit _ _ _ _ :: cs' => wait_before_transmit cs' :: settle_times cs'
  | CallDelay _ :: cs' => settle_times cs'
  end.

(** ** Bytes: reduction to the 256 cases *)

Section Bytes.

Lemma forall_bytes (P : Z -> bool) :
  forallb P all_bytes = true -> forall x, 0 <= x < 256 -> P x = true.
Proof.
  intros Hall x Hx.
  rewrite forallb_forall in Hall. apply Hall.
  unfold all_bytes. apply in_map_iff.
  exists (Z.to_nat x). split; [lia|].
  apply in_seq. lia.
Qed.

Lemma mod_256_land (z : Z) : z mod 256 = Z.land z 255.
Proof. change 256 with (2 ^ 8). now rewrite <- Z.land_ones by lia. Qed.

Lemma mod_256_byte (z : Z) : 0 <= z mod 256 < 256.
Proof. apply Z.mod_pos_bound. lia. Qed.

Lemma to_char_mod (s : bool) (z : Z) : to_char s (z mod 256) = to_char s z.
Proof. unfold to_char. now rewrite Z.mod_mod by lia. Qed.

Lemma to_char_small (s : bool) (z : Z) : 0 <= z < 128 -> to_char s z = z.
Proof.
  intros Hz. unfold to_char. rewrite Z.mod_small by lia.
  destruct s; [|reflexivity].
  destruct (z <? 128) eqn:Hlt; [reflexivity|].
  apply Z.ltb_ge in Hlt. lia.
Qed.

Lemma upper_nibble_mod (z : Z) : upper_nibble (z mod 256) = upper_nibble z.
Proof.
  unfold upper_nibble. rewrite mod_256_land, <- Z.land_assoc. reflexivity.
Qed.

Lemma lower_nibble_mod (z : Z) : lower_nibble (z mod 256) = lower_nibble z.
Proof.
  unfold lower_nibble.
  rewrite mod_256_land, Z.shiftl_land, <- Z.land_assoc. reflexivity.
Qed.

Lemma spec_command_frame_mod (z : Z) :
  spec_command_frame (z mod 256) = spec_command_frame z.
Proof.
  unfold spec_command_frame.
  now rewrite upper_nibble_mod, lower_nibble_mod.
Qed.

Lemma spec_data_frame_mod (z : Z) :
  spec_data_frame (z mod 256) = spec_data_frame z.
Proof.
  unfold spec_data_frame.
  now rewrite upper_nibble_mod, lower_nibble_mod.
Qed.

Lemma frame_eqb_eq (f g : list Z) : frame_eqb f g = true -> f = g.
Proof.
  revert g. induction f as [|x f IH]; intros [|y g]; simpl; try easy.
  intros H. apply andb_true_iff in H as [Hxy Hfg].
  apply Z.eqb_eq in Hxy. subst y. f_equal. now apply IH.
Qed.

(** Two frame builders that agree on the 256 bytes agree on every byte. *)
Lemma frames_agree (F G : Z -> list Z) :
  forallb (fun x => frame_eqb (F x) (G x)) all_bytes = true ->
  forall x, 0 <= x < 256 -> F x = G x.
Proof.
  intros Hall x Hx. apply frame_eqb_eq.
  now apply (forall_bytes (fun x => frame_eqb (F x) (G x))).
Qed.

End Bytes.

(** ** The two primitives *)

Section Primitives.

Variable s : bool.

(** The buffer [LCD_SEND_CMD] builds is the command frame of the
    specification, for a signed and for an unsigned [char]. *)
Lemma command_buffer (b : Z) :
  let cmd := to_char s b in
  let upper_data := to_char s (Z.land cmd UPPER_BITS_MASK) in
  let lower_data :=
    to_char s (Z.land (Z.shiftl cmd LCD_BUFFER_SIZE) UPPER_BITS_MASK) in
  [ to_uint8 (Z.lor upper_data EN_BIT_MASK);
    to_uint8 (Z.lor upper_data RS_EN_OFF_MASK);
    to_uint8 (Z.lor lower_data EN_BIT_MASK);
    to_uint8 (Z.lor lower_data RS_EN_OFF_MASK) ] = spec_command_frame b.
Proof.
  cbv zeta.
  rewrite <- (to_char_mod s b), <- (spec_command_frame_mod b).
  generalize (mod_256_byte b). generalize (b mod 256). clear b.
  apply (frames_agree
           (fun x =>
              [ to_uint8 (Z.lor (to_char s (Z.land (to_char s x) UPPER_BITS_MASK)) EN_BIT_MASK);
                to_uint8 (Z.lor (to_char s (Z.land (to_char s x) UPPER_BITS_MASK)) RS_EN_OFF_MASK);
                to_uint8 (Z.lor (to_char s (Z.land (Z.shiftl (to_char s x) LCD_BUFFER_SIZE) UPPER_BITS_MASK)) EN_BIT_MASK);
                to_uint8 (Z.lor (to_char s (Z.land (Z.shiftl (to_char s x) LCD_BUFFER_SIZE) UPPER_BITS_MASK)) RS_EN_OFF_MASK) ])
           spec_command_frame).
  destruct s; vm_compute; reflexivity.
Qed.

Lemma data_buffer (b : Z) :
  let data := to_char s b in
  let upper_data := to_char s (Z.land data UPPER_BITS_MASK) in
  let lower_data :=
    to_char s (Z.land (Z.shiftl data LCD_BUFFER_SIZE) UPPER_BITS_MASK) in
  [ to_uint8 (Z.lor upper_data RS_EN_ON_MASK);
    to_uint8 (Z.lor upper_data RS_BIT_MASK);
    to_uint8 (Z.lor lower_data RS_EN_ON_MASK);
    to_uint8 (Z.lor lower_data RS_BIT_MASK) ] = spec_data_frame b.
Proof.
  cbv zeta.
  rewrite <- (to_char_mod s b), <- (spec_data_frame_mod b).
  generalize (mod_256_byte b). generalize (b mod 256). clear b.
  apply (frames_agree
           (fun x =>
              [ to_uint8 (Z.lor (to_char s (Z.land (to_char s x) UPPER_BITS_MASK)) RS_EN_ON_MASK);
                to_uint8 (Z.lor (to_char s (Z.land (to_char s x) UPPER_BITS_MASK)) RS_BIT_MASK);
                to_uint8 (Z.lor (to_char s (Z.land (Z.shiftl (to_char s x) LCD_BUFFER_SIZE) UPPER_BITS_MASK)) RS_EN_ON_MASK);
                to_uint8 (Z.lor (to_char s (Z.land (Z.shiftl (to_char s x) LCD_BUFFER_SIZE) UPPER_BITS_MASK)) RS_BIT_MASK) ])
           spec_data_frame).
  destruct s; vm_compute; reflexivity.
Qed.

(** A run of [LCD_SEND_CMD]: it returns, after one transmission. *)
Lemma LCD_SEND_CMD_run (b : Z) (bus : Bus) (h : list event) :
  LCD_SEND_CMD s b bus h =
  (Some tt,
   [EvTransmit 0x4E (spec_command_frame b) 4 100
      (bus h 0x4E (spec_command_frame b) 4 100)]).
Proof.
  unfold LCD_SEND_CMD, bind, HAL_I2C_Master_Transmit, ret.
  cbv zeta. rewrite (command_buffer b). reflexivity.
Qed.

Lemma LCD_SEND_DATA_run (b : Z) (bus : Bus) (h : list event) :
  LCD_SEND_DATA s b bus h =
  (Some tt,
   [EvTransmit 0x4E (spec_data_frame b) 4 100
      (bus h 0x4E (spec_data_frame b) 4 100)]).
Proof.
  unfold LCD_SEND_DATA, bind, HAL_I2C_Master_Transmit, ret.
  cbv zeta. rewrite (data_buffer b). reflexivity.
Qed.

End Primitives.

(** ** Sequencing *)

Section Sequencing.

Lemma outcome_inv {A} (r : option A * list event)
    (res : option A) (cs : list call) :
  outcome r = (res, cs) -> fst r = res /\ calls r = cs.
Proof. unfold outcome. intros H. now injection H. Qed.

Lemma oblivious_ret {A} (a : A) : oblivious (ret a).
Proof. intros bus bus' h h'. reflexivity. Qed.

Lemma oblivious_stuck {A} : oblivious (@stuck A).
Proof. intros bus bus' h h'. reflexivity. Qed.

Lemma oblivious_HAL_Delay (ms : Z) : oblivious (HAL_Delay ms).
Proof. intros bus bus' h h'. reflexivity. Qed.

Lemma oblivious_bind {A B} (m : M A) (k : A -> M B) :
  oblivious m -> (forall a, oblivious (k a)) -> oblivious (bind m k).
Proof.
  intros Hm Hk bus bus' h h'.
  specialize (Hm bus bus' h h'). unfold outcome, calls, bind in *.
  destruct (m bus h) as [[a|] e1], (m bus' h') as [[a'|] e1'];
    simpl in *; try discriminate.
  - injection Hm as Ha He. subst a'.
    specialize (Hk a bus bus' (h ++ e1) (h' ++ e1')).
    unfold outcome, calls in Hk.
    destruct (k a bus (h ++ e1)) as [b e2], (k a bus' (h' ++ e1')) as [b' e2'].
    simpl in *. injection Hk as Hb He2. subst b'.
    now rewrite !map_app, He, He2.
  - injection Hm as He. now rewrite He.
Qed.

Lemma emits_only_ret {A} (P : event -> bool) (a : A) : emits_only P (ret a).
Proof. intros bus h. reflexivity. Qed.

Lemma emits_only_stuck {A} (P : event -> bool) : emits_only P (@stuck A).
Proof. intros bus h. reflexivity. Qed.

Lemma emits_only_bind {A B} (P : event -> bool) (m : M A) (k : A -> M B) :
  emits_only P m -> (forall a, emits_only P (k a)) -> emits_only P (bind m k).
Proof.
  intros Hm Hk bus h. specialize (Hm bus h). unfold bind.
  destruct (m bus h) as [[a|] e1]; simpl in *; [|exact Hm].
  specialize (Hk a bus (h ++ e1)).
  destruct (k a bus (h ++ e1)) as [b e2]. simpl in *.
  rewrite forallb_app. now rewrite Hm, Hk.
Qed.

End Sequencing.

(** ** The operations ignore the bus *)

Section Oblivious.

Variable s : bool.

Lemma oblivious_LCD_SEND_CMD (b : Z) : oblivious (LCD_SEND_CMD s b).
Proof. intros bus bus' h h'. now rewrite !LCD_SEND_CMD_run. Qed.

Lemma oblivious_LCD_SEND_DATA (b : Z) : oblivious (LCD_SEND_DATA s b).
Proof. intros bus bus' h h'. now rewrite !LCD_SEND_DATA_run. Qed.

Lemma oblivious_LCD_CLEAR_loop (fuel : nat) (i : Z) :
  oblivious (LCD_CLEAR_loop s fuel i).
Proof.
  revert i. induction fuel as [|fuel IH]; intros i; simpl.
  - apply oblivious_stuck.
  - destruct (i <? LCD_CLEAR_ROW_LENGTH).
    + apply oblivious_bind; [apply oblivious_LCD_SEND_DATA | intros _; apply IH].
    + apply oblivious_ret.
Qed.

Lemma oblivious_LCD_SEND_STRING (str : list Z) :
  oblivious (LCD_SEND_STRING s str).
Proof.
  induction str as [|c str IH]; simpl.
  - apply oblivious_stuck.
  - destruct (c =? 0).
    + apply oblivious_ret.
    + apply oblivious_bind; [apply oblivious_LCD_SEND_DATA | intros _; exact IH].
Qed.

Lemma oblivious_LCD_INIT : oblivious (LCD_INIT s).
Proof.
  unfold LCD_INIT.
  repeat lazymatch goal with
    | |- oblivious (bind (HAL_Delay _) _) =>
        apply oblivious_bind; [apply oblivious_HAL_Delay | intros _]
    | |- oblivious (bind (LCD_SEND_CMD _ _) _) =>
        apply oblivious_bind; [apply oblivious_LCD_SEND_CMD | intros _]
    end.
  apply oblivious_LCD_SEND_CMD.
Qed.

Lemma oblivious_LCD_CLEAR : oblivious (LCD_CLEAR s).
Proof.
  unfold LCD_CLEAR.
  apply oblivious_bind;
    [apply oblivious_LCD_SEND_CMD | intros _; apply oblivious_LCD_CLEAR_loop].
Qed.

Lemma oblivious_exec (op : operation) : oblivious (exec s op).
Proof.
  destruct op; simpl.
  - apply oblivious_LCD_SEND_CMD.
  - apply oblivious_LCD_SEND_DATA.
  - apply oblivious_LCD_CLEAR.
  - unfold LCD_SET_CURSOR. apply oblivious_LCD_SEND_CMD.
  - apply oblivious_LCD_INIT.
  - apply oblivious_LCD_SEND_STRING.
  - apply oblivious_LCD_SEND_CMD.
  - apply oblivious_LCD_SEND_CMD.
Qed.

End Oblivious.

(** ** The shape of what is transmitted *)

Section Shape.

Variable s : bool.

Lemma spec_command_frame_shape (b : Z) :
  frame_shape (spec_command_frame b) = true.
Proof.
  rewrite <- spec_command_frame_mod.
  apply (forall_bytes (fun x => frame_shape (spec_command_frame x)));
    [vm_compute; reflexivity | apply mod_256_byte].
Qed.

Lemma spec_data_frame_shape (b : Z) :
  frame_shape (spec_data_frame b) = true.
Proof.
  rewrite <- spec_data_frame_mod.
  apply (forall_bytes (fun x => frame_shape (spec_data_frame x)));
    [vm_compute; reflexivity | apply mod_256_byte].
Qed.

(** A frame carries its byte: the controller reads back the command, or
    the data byte, that was sent. *)
Lemma frame_payload_command (b : Z) :
  frame_payload (spec_command_frame b) = Some (false, b mod 256).
Proof.
  rewrite <- spec_command_frame_mod.
  generalize (mod_256_byte b). generalize (b mod 256). clear b. intros x Hx.
  pose (ok := fun x =>
    match frame_payload (spec_command_frame x) with
    | Some (false, y) => y =? x
    | _ => false
    end).
  assert (Hok : ok x = true)
    by (apply forall_bytes; [vm_compute; reflexivity | exact Hx]).
  unfold ok in Hok.
  destruct (frame_payload (spec_command_frame x)) as [[[|] y]|];
    try discriminate.
  apply Z.eqb_eq in Hok. now subst y.
Qed.

Lemma frame_payload_data (b : Z) :
  frame_payload (spec_data_frame b) = Some (true, b mod 256).
Proof.
  rewrite <- spec_data_frame_mod.
  generalize (mod_256_byte b). generalize (b mod 256). clear b. intros x Hx.
  pose (ok := fun x =>
    match frame_payload (spec_data_frame x) with
    | Some (true, y) => y =? x
    | _ => false
    end).
  assert (Hok : ok x = true)
    by (apply forall_bytes; [vm_compute; reflexivity | exact Hx]).
  unfold ok in Hok.
  destruct (frame_payload (spec_data_frame x)) as [[[|] y]|];
    try discriminate.
  apply Z.eqb_eq in Hok. now subst y.
Qed.

(** Distinct bytes have distinct frames, and no command frame is a data
    frame. *)
Lemma cmd_call_inj (a b : Z) :
  cmd_call a = cmd_call b -> a mod 256 = b mod 256.
Proof.
  unfold cmd_call. intros H.
  assert (Hf : spec_command_frame a = spec_command_frame b) by congruence.
  pose proof (frame_payload_command a) as Ha.
  rewrite Hf, frame_payload_command in Ha. now injection Ha.
Qed.

Lemma data_call_inj (a b : Z) :
  data_call a = data_call b -> a mod 256 = b mod 256.
Proof.
  unfold data_call. intros H.
  assert (Hf : spec_data_frame a = spec_data_frame b) by congruence.
  pose proof (frame_payload_data a) as Ha.
  rewrite Hf, frame_payload_data in Ha. now injection Ha.
Qed.

Lemma cmd_call_not_data_call (a b : Z) : cmd_call a <> data_call b.
Proof.
  unfold cmd_call, data_call. intros H.
  assert (Hf : spec_command_frame a = spec_data_frame b) by congruence.
  pose proof (frame_payload_command a) as Ha.
  rewrite Hf, frame_payload_data in Ha. discriminate Ha.
Qed.

Lemma shaped_HAL_Delay (ms : Z) : emits_only transmission_ok (HAL_Delay ms).
Proof. intros bus h. reflexivity. Qed.

Lemma shaped_LCD_SEND_CMD (b : Z) :
  emits_only transmission_ok (LCD_SEND_CMD s b).
Proof.
  intros bus h. rewrite LCD_SEND_CMD_run. simpl snd.
  unfold forallb, transmission_ok.
  rewrite spec_command_frame_shape. reflexivity.
Qed.

Lemma shaped_LCD_SEND_DATA (b : Z) :
  emits_only transmission_ok (LCD_SEND_DATA s b).
Proof.
  intros bus h. rewrite LCD_SEND_DATA_run. simpl snd.
  unfold forallb, transmission_ok.
  rewrite spec_data_frame_shape. reflexivity.
Qed.

Lemma shaped_LCD_CLEAR_loop (fuel : nat) (i : Z) :
  emits_only transmission_ok (LCD_CLEAR_loop s fuel i).
Proof.
  revert i. induction fuel as [|fuel IH]; intros i; simpl.
  - apply emits_only_stuck.
  - destruct (i <? LCD_CLEAR_ROW_LENGTH).
    + apply emits_only_bind; [apply shaped_LCD_SEND_DATA | intros _; apply IH].
    + apply emits_only_ret.
Qed.

Lemma shaped_LCD_SEND_STRING (str : list Z) :
  emits_only transmission_ok (LCD_SEND_STRING s str).
Proof.
  induction str as [|c str IH]; simpl.
  - apply emits_only_stuck.
  - destruct (c =? 0).
    + apply emits_only_ret.
    + apply emits_only_bind; [apply shaped_LCD_SEND_DATA | intros _; exact IH].
Qed.

Lemma shaped_LCD_INIT : emits_only transmission_ok (LCD_INIT s).
Proof.
  unfold LCD_INIT.
  repeat lazymatch goal with
    | |- emits_only _ (bind (HAL_Delay _) _) =>
        apply emits_only_bind; [apply shaped_HAL_Delay | intros _]
    | |- emits_only _ (bind (LCD_SEND_CMD _ _) _) =>
        apply emits_only_bind; [apply shaped_LCD_SEND_CMD | intros _]
    end.
  apply shaped_LCD_SEND_CMD.
Qed.

End Shape.

(** ** Runs of the compound operations *)

Section Runs.

Variable s : bool.

Lemma outcome_data_then (c : Z) (k : M unit) (bus : Bus) (h : list event) :
  exists h1,
    outcome ((LCD_SEND_DATA s c ;; k) bus h) =
    (fst (k bus h1), data_call c :: calls (k bus h1)).
Proof.
  exists (h ++ [EvTransmit 0x4E (spec_data_frame c) 4 100
                  (bus h 0x4E (spec_data_frame c) 4 100)]).
  unfold bind. rewrite LCD_SEND_DATA_run.
  destruct (k bus _) as [r e2]. reflexivity.
Qed.

Lemma outcome_cmd_then (c : Z) (k : M unit) (bus : Bus) (h : list event) :
  exists h1,
    outcome ((LCD_SEND_CMD s c ;; k) bus h) =
    (fst (k bus h1), cmd_call c :: calls (k bus h1)).
Proof.
  exists (h ++ [EvTransmit 0x4E (spec_command_frame c) 4 100
                  (bus h 0x4E (spec_command_frame c) 4 100)]).
  unfold bind. rewrite LCD_SEND_CMD_run.
  destruct (k bus _) as [r e2]. reflexivity.
Qed.

Lemma times_LCD_SEND_CMD_run (n : nat) (c : Z) (bus : Bus) (h : list event) :
  outcome (times n (LCD_SEND_CMD s c) bus h) =
  (Some tt, repeat (cmd_call c) n).
Proof.
  revert h. induction n as [|n IH]; intros h.
  - reflexivity.
  - simpl times.
    destruct (outcome_cmd_then c (times n (LCD_SEND_CMD s c)) bus h)
      as [h1 ->].
    specialize (IH h1). unfold outcome in IH.
    injection IH as Hres Hcalls. now rewrite Hres, Hcalls.
Qed.

(** The whole script of [LCD_INIT], whatever the bus answers. *)
Lemma LCD_INIT_run (bus : Bus) (h : list event) :
  outcome (LCD_INIT s bus h) =
  (Some tt,
   [ CallDelay 40; cmd_call 0x30; CallDelay 5; cmd_call 0x30;
     CallDelay 1; cmd_call 0x30; CallDelay 10; cmd_call 0x20;
     CallDelay 10; cmd_call 0x28; CallDelay 1; cmd_call 0x08;
     CallDelay 1; cmd_call 0x01; CallDelay 1; CallDelay 1;
     cmd_call 0x06; CallDelay 1; cmd_call 0x0C ]).
Proof.
  rewrite (oblivious_LCD_INIT s bus (bus_always HAL_OK) h []).
  destruct s; vm_compute; reflexivity.
Qed.

Lemma LCD_CLEAR_run (bus : Bus) (h : list event) :
  outcome (LCD_CLEAR s bus h) =
  (Some tt, cmd_call 0x80 :: repeat (data_call 0x20) 16).
Proof.
  rewrite (oblivious_LCD_CLEAR s bus (bus_always HAL_OK) h []).
  destruct s; vm_compute; reflexivity.
Qed.

(** The loop of [LCD_CLEAR] stops by its own test: any fuel above the
    number of iterations left gives the same run. *)
Lemma LCD_CLEAR_loop_run (fuel : nat) (i : Z) (bus : Bus) (h : list event) :
  0 <= i <= 16 -> (Z.to_nat (16 - i) < fuel)%nat ->
  outcome (LCD_CLEAR_loop s fuel i bus h) =
  (Some tt, repeat (data_call 0x20) (Z.to_nat (16 - i))).
Proof.
  revert i h. induction fuel as [|fuel IH]; intros i h Hi Hfuel; [lia|].
  simpl LCD_CLEAR_loop. unfold LCD_CLEAR_ROW_LENGTH.
  destruct (i <? 16) eqn:Hlt.
  - apply Z.ltb_lt in Hlt.
    rewrite (to_char_small s (i + 1)) by lia.
    destruct (outcome_data_then SPACE
                (LCD_CLEAR_loop s fuel (i + 1)) bus h) as [h1 ->].
    assert (Hi1 : 0 <= i + 1 <= 16) by lia.
    assert (Hf1 : (Z.to_nat (16 - (i + 1)) < fuel)%nat) by lia.
    destruct (outcome_inv _ _ _ (IH (i + 1) h1 Hi1 Hf1)) as [Hres Hcalls].
    rewrite Hres, Hcalls.
    replace (Z.to_nat (16 - i)) with (S (Z.to_nat (16 - (i + 1)))) by lia.
    reflexivity.
  - apply Z.ltb_ge in Hlt.
    replace (16 - i) with 0 by lia. reflexivity.
Qed.

Lemma LCD_SEND_STRING_run (text rest : list Z) (bus : Bus) (h : list event) :
  Forall (fun c => c <> 0) text ->
  outcome (LCD_SEND_STRING s (text ++ 0 :: rest) bus h) =
  (Some tt, map data_call text).
Proof.
  intros Htext. revert h.
  induction Htext as [|c text Hc _ IH]; intros h.
  - reflexivity.
  - simpl. apply Z.eqb_neq in Hc. rewrite Hc.
    destruct (outcome_data_then c
                (LCD_SEND_STRING s (text ++ 0 :: rest)) bus h) as [h1 ->].
    specialize (IH h1). unfold outcome in IH.
    injection IH as Hres Hcalls. now rewrite Hres, Hcalls.
Qed.

End Runs.

(** ** Runs on concrete inputs *)

Section Examples.

Example LCD_SEND_CMD_0x30 :
  LCD_SEND_CMD false 0x30 (bus_always HAL_OK) [] =
  (Some tt, [EvTransmit 0x4E [0x3C; 0x38; 0x0C; 0x08] 4 100 HAL_OK]).
Proof. reflexivity. Qed.

Example LCD_SEND_DATA_0xE9_signed_char :
  LCD_SEND_DATA true 0xE9 (bus_always HAL_ERROR) [] =
  (Some tt, [EvTransmit 0x4E [0xED; 0xE9; 0x9D; 0x99] 4 100 HAL_ERROR]).
Proof. reflexivity. Qed.

Example LCD_SET_CURSOR_row_1_col_3 :
  calls (LCD_SET_CURSOR false 1 3 (bus_always HAL_OK) []) =
  [CallTransmit 0x4E [0xCC; 0xC8; 0x3C; 0x38] 4 100].
Proof. reflexivity. Qed.

Example LCD_SEND_STRING_without_null :
  fst (LCD_SEND_STRING false [0x41; 0x42] (bus_always HAL_OK) []) = None.
Proof. reflexivity. Qed.

Example LCD_INIT_second_transmission_fails :
  map failed (snd (LCD_INIT false (bus_failing_at 1 HAL_ERROR) [])) =
  [ false; false; false; true; false; false; false; false; false; false;
    false; false; false; false; false; false; false; false; false ].
Proof. reflexivity. Qed.

Example nothing_latched_without_enable :
  frame_payload [0; 0; 0; 0] = None
  /\ frame_payload [0x38; 0x38; 0x08; 0x08] = None.
Proof. split; reflexivity. Qed.

Example nothing_latched_when_lines_change_on_the_edge :
  frame_payload [0x3C; 0x39; 0x0C; 0x08] = None
  /\ frame_payload [0x3C; 0x28; 0x0C; 0x08] = None.
Proof. split; reflexivity. Qed.

Example command_0x30_latched :
  frame_payload [0x3C; 0x38; 0x0C; 0x08] = Some (false, 0x30).
Proof. reflexivity. Qed.

End Examples.

(** ** Nibbles and control bits *)

Section Nibbles.

Lemma upper_nibble_high (b : Z) :
  Z.land (upper_nibble b) 0x0F = 0 /\
  Z.land (upper_nibble b) 0xF0 = upper_nibble b.
Proof.
  unfold upper_nibble. rewrite <- !Z.land_assoc. simpl Z.land at 2 4.
  now rewrite Z.land_0_r.
Qed.

Lemma lower_nibble_high (b : Z) :
  Z.land (lower_nibble b) 0x0F = 0 /\
  Z.land (lower_nibble b) 0xF0 = lower_nibble b.
Proof.
  unfold lower_nibble. rewrite <- !Z.land_assoc. simpl Z.land at 2 4.
  now rewrite Z.land_0_r.
Qed.

(** A nibble in the high half and a mask in the low half stay apart
    under [|]. *)
Lemma slot_ok_lor (n m : Z) :
  Z.land n 0x0F = 0 -> Z.land n 0xF0 = n ->
  Z.land m 0x0F = m -> Z.land m 0xF0 = 0 ->
  slot_ok (Z.lor n m) (n, m).
Proof.
  intros Hn0 Hn Hm Hm0. unfold slot_ok. simpl fst. simpl snd.
  rewrite !Z.land_lor_distr_l, Hn0, Hn, Hm, Hm0.
  now rewrite Z.lor_0_l, Z.lor_0_r.
Qed.

End Nibbles.

(** * The claims *)

(** C1.  For every byte [b] (every value passed, as it converts to
    [char]), [LCD_SEND_CMD b] returns after exactly one transmission, of
    the four bytes (b & 0xF0) | 0x0C, (b & 0xF0) | 0x08,
    ((b << 4) & 0xF0) | 0x0C, ((b << 4) & 0xF0) | 0x08 in this order, and
    [LCD_SEND_DATA b] after exactly one transmission of
    (b & 0xF0) | 0x0D, (b & 0xF0) | 0x09, ((b << 4) & 0xF0) | 0x0D,
    ((b << 4) & 0xF0) | 0x09. *)
Theorem send_command_and_send_data_frames
    (s : bool) (b : Z) (bus : Bus) (h : list event) :
  outcome (LCD_SEND_CMD s b bus h) =
    (Some tt,
     [CallTransmit 0x4E
        [ Z.lor (Z.land b 0xF0) 0x0C;
          Z.lor (Z.land b 0xF0) 0x08;
          Z.lor (Z.land (Z.shiftl b 4) 0xF0) 0x0C;
          Z.lor (Z.land (Z.shiftl b 4) 0xF0) 0x08 ] 4 100])
  /\
  outcome (LCD_SEND_DATA s b bus h) =
    (Some tt,
     [CallTransmit 0x4E
        [ Z.lor (Z.land b 0xF0) 0x0D;
          Z.lor (Z.land b 0xF0) 0x09;
          Z.lor (Z.land (Z.shiftl b 4) 0xF0) 0x0D;
          Z.lor (Z.land (Z.shiftl b 4) 0xF0) 0x09 ] 4 100]).
Proof.
  rewrite LCD_SEND_CMD_run, LCD_SEND_DATA_run. split; reflexivity.
Qed.

(** C2, as the specification states it, fails: an operation does not
    surface a failure of the bus.  [LCD_SEND_CMD] returns the same to its
    caller when the bus times out as when it succeeds, so nothing computed
    from what it returns can tell the two runs apart. *)
Lemma bus_failure_is_not_surfaced :
  failed (EvTransmit 0x4E (spec_command_frame 0x01) 4 100 HAL_TIMEOUT) = true
  /\ snd (exec false (OpSendCmd 0x01) (bus_always HAL_TIMEOUT) []) =
     [EvTransmit 0x4E (spec_command_frame 0x01) 4 100 HAL_TIMEOUT]
  /\ fst (exec false (OpSendCmd 0x01) (bus_always HAL_TIMEOUT) []) =
     fst (exec false (OpSendCmd 0x01) (bus_always HAL_OK) [])
  /\ ~ surfaces_failures (exec false (OpSendCmd 0x01)).
Proof.
  repeat split.
  intros [report Hreport].
  pose proof (Hreport (bus_always HAL_OK) []) as Hok.
  pose proof (Hreport (bus_always HAL_TIMEOUT) []) as Hko.
  vm_compute in Hok, Hko. congruence.
Qed.

(** C2, amended.  Whatever the bus answers to the transmissions of a
    driver operation (failure, busy, timeout or success, on any of them),
    the operation returns the same to its caller and issues the same calls
    in the same order as when every transmission succeeds: the status is
    dropped, no transmission is issued a second time, and none is left
    out. *)
Theorem bus_failures_are_ignored_and_not_retried
    (s : bool) (op : operation) (bus : Bus) (h : list event) :
  outcome (exec s op bus h) = outcome (exec s op (bus_always HAL_OK) h)
  /\ length (transmissions (exec s op bus h)) =
     length (transmissions (exec s op (bus_always HAL_OK) h)).
Proof.
  pose proof (oblivious_exec s op bus (bus_always HAL_OK) h h) as Hobl.
  split; [exact Hobl|].
  unfold outcome in Hobl. injection Hobl as _ Hcalls.
  unfold transmissions. now rewrite Hcalls.
Qed.

(** C3.  [LCD_INIT] returns, and the transmissions it issues are exactly
    the commands 0x30, 0x30, 0x30, 0x20, 0x28, 0x08, 0x01, 0x06, 0x0C in
    this order, none left out, added or moved.  Its calls are, in full: a
    wait, then each command followed by its waits, the last command by
    none.  Every wait lasts strictly more than zero, and between any two
    successive commands the driver waits strictly more than zero. *)
Theorem LCD_INIT_command_order (s : bool) (bus : Bus) (h : list event) :
  fst (LCD_INIT s bus h) = Some tt
  /\ transmissions (LCD_INIT s bus h) =
     map cmd_call [0x30; 0x30; 0x30; 0x20; 0x28; 0x08; 0x01; 0x06; 0x0C]
  /\ Forall (fun ms => 0 < ms) (waits (LCD_INIT s bus h))
  /\ calls (LCD_INIT s bus h) =
     [ CallDelay 40; cmd_call 0x30; CallDelay 5; cmd_call 0x30;
       CallDelay 1; cmd_call 0x30; CallDelay 10; cmd_call 0x20;
       CallDelay 10; cmd_call 0x28; CallDelay 1; cmd_call 0x08;
       CallDelay 1; cmd_call 0x01; CallDelay 1; CallDelay 1;
       cmd_call 0x06; CallDelay 1; cmd_call 0x0C ]
  /\ length (settle_times (calls (LCD_INIT s bus h))) = 9%nat
  /\ Forall (fun ms => 0 < ms)
       (removelast (settle_times (calls (LCD_INIT s bus h)))).
Proof.
  destruct (outcome_inv _ _ _ (LCD_INIT_run s bus h)) as [Hres Hcalls].
  unfold transmissions, waits. rewrite Hres, Hcalls.
  split; [reflexivity|]. split; [reflexivity|].
  split; [simpl delays_of; repeat constructor|].
  split; [reflexivity|]. split; [reflexivity|].
  cbn [settle_times wait_before_transmit cmd_call removelast].
  repeat constructor.
Qed.

(** C4.  The first call of [LCD_INIT] is a wait of [DELAY_50MS], which the
    header defines as 40, not 50; the three 8-bit-mode commands that come
    next are followed by waits of 5, 1 and 10. *)
Theorem LCD_INIT_first_wait_is_40 (s : bool) (bus : Bus) (h : list event) :
  firstn 7 (calls (LCD_INIT s bus h)) =
    [ CallDelay 40; cmd_call 0x30; CallDelay 5; cmd_call 0x30;
      CallDelay 1; cmd_call 0x30; CallDelay 10 ]
  /\ hd_error (calls (LCD_INIT s bus h)) <> Some (CallDelay 50).
Proof.
  destruct (outcome_inv _ _ _ (LCD_INIT_run s bus h)) as [_ Hcalls].
  rewrite Hcalls. split; [reflexivity|].
  simpl hd_error. intros Heq. discriminate Heq.
Qed.

(** C5.  [LCD_CLEAR] returns after exactly 17 transmissions and no other
    call: the command 0x80, then sixteen times the data byte 0x20 (the
    space character), whatever the bus and the history. *)
Theorem LCD_CLEAR_seventeen_transmissions
    (s : bool) (bus : Bus) (h : list event) :
  fst (LCD_CLEAR s bus h) = Some tt
  /\ calls (LCD_CLEAR s bus h) = cmd_call 0x80 :: repeat (data_call 0x20) 16
  /\ length (transmissions (LCD_CLEAR s bus h)) = 17%nat.
Proof.
  destruct (outcome_inv _ _ _ (LCD_CLEAR_run s bus h)) as [Hres Hcalls].
  unfold transmissions. rewrite Hres, Hcalls.
  split; [reflexivity|]. split; reflexivity.
Qed.

(** C6.  For every column [c], [LCD_SET_CURSOR 0 c] is
    [LCD_SEND_CMD (c | 0x80)] and transmits that single command,
    [LCD_SET_CURSOR 1 c] is [LCD_SEND_CMD (c | 0xC0)] and transmits that
    single command, and for every row other than 0 and 1
    [LCD_SET_CURSOR row c] passes [c] unchanged to [LCD_SEND_CMD] and
    transmits it as the single command. *)
Theorem LCD_SET_CURSOR_command
    (s : bool) (c : Z) (bus : Bus) (h : list event) :
  (LCD_SET_CURSOR s 0 c = LCD_SEND_CMD s (Z.lor c 0x80)
   /\ outcome (LCD_SET_CURSOR s 0 c bus h) =
      (Some tt, [cmd_call (Z.lor c 0x80)]))
  /\ (LCD_SET_CURSOR s 1 c = LCD_SEND_CMD s (Z.lor c 0xC0)
      /\ outcome (LCD_SET_CURSOR s 1 c bus h) =
         (Some tt, [cmd_call (Z.lor c 0xC0)]))
  /\ (forall row : Z, row <> 0 -> row <> 1 ->
      LCD_SET_CURSOR s row c = LCD_SEND_CMD s c
      /\ outcome (LCD_SET_CURSOR s row c bus h) = (Some tt, [cmd_call c])).
Proof.
  split; [|split].
  - split; [reflexivity|].
    unfold LCD_SET_CURSOR. simpl. now rewrite LCD_SEND_CMD_run.
  - split; [reflexivity|].
    unfold LCD_SET_CURSOR. simpl. now rewrite LCD_SEND_CMD_run.
  - intros row H0 H1. unfold LCD_SET_CURSOR.
    apply Z.eqb_neq in H0, H1. rewrite H0, H1.
    split; [reflexivity|]. now rewrite LCD_SEND_CMD_run.
Qed.

(** Witness of C6: row 2, column 5. *)
Lemma LCD_SET_CURSOR_command_witness :
  2 <> 0 /\ 2 <> 1
  /\ outcome (LCD_SET_CURSOR false 2 5 (bus_always HAL_OK) []) =
     (Some tt, [cmd_call 5]).
Proof.
  split; [lia|]. split; [lia|].
  apply (proj2 (proj2 (LCD_SET_CURSOR_command false 5 (bus_always HAL_OK) []))
           2); lia.
Defined.

(** C7.  For a string whose characters [text] are followed by the
    terminating null (and by whatever memory comes after it),
    [LCD_SEND_STRING] returns after exactly one data transmission per
    character of [text], in the order of the string, and transmits nothing
    for the terminator; for "AB" these are the data bytes 0x41 and 0x42. *)
Theorem LCD_SEND_STRING_one_data_per_char
    (s : bool) (text rest : list Z) (bus : Bus) (h : list event) :
  Forall (fun c => c <> 0) text ->
  outcome (LCD_SEND_STRING s (text ++ 0 :: rest) bus h) =
    (Some tt, map data_call text)
  /\ length (calls (LCD_SEND_STRING s (text ++ 0 :: rest) bus h)) =
     length text
  /\ outcome (LCD_SEND_STRING s (0x41 :: 0x42 :: 0 :: rest) bus h) =
     (Some tt, [data_call 0x41; data_call 0x42]).
Proof.
  intros Htext.
  pose proof (LCD_SEND_STRING_run s text rest bus h Htext) as Hrun.
  split; [exact Hrun|]. split.
  - destruct (outcome_inv _ _ _ Hrun) as [_ Hcalls].
    rewrite Hcalls. apply length_map.
  - apply (LCD_SEND_STRING_run s [0x41; 0x42] rest bus h).
    repeat constructor; discriminate.
Qed.

(** Witness of C7: the string "Hi", with one more cell after its null. *)
Lemma LCD_SEND_STRING_one_data_per_char_witness :
  Forall (fun c => c <> 0) [0x48; 0x69]
  /\ outcome (LCD_SEND_STRING false ([0x48; 0x69] ++ 0 :: [0x21])
                (bus_always HAL_OK) []) =
     (Some tt, map data_call [0x48; 0x69]).
Proof.
  assert (Hnz : Forall (fun c => c <> 0) [0x48; 0x69])
    by (repeat constructor; discriminate).
  split; [exact Hnz|].
  exact (proj1 (LCD_SEND_STRING_one_data_per_char false [0x48; 0x69] [0x21]
                  (bus_always HAL_OK) [] Hnz)).
Defined.

(** C8.  [LCD_SCROLL_LEFT] returns after exactly one transmission, the
    command 0x18, and [LCD_SCROLL_RIGHT] after exactly one transmission,
    the command 0x1C.  No scroll state is kept by the driver: the same
    single command is issued whatever happened before, so a scroll
    repeated [n] times in a row issues [n] times the same command. *)
Theorem scroll_commands (s : bool) (bus : Bus) (h : list event) :
  outcome (LCD_SCROLL_LEFT s bus h) = (Some tt, [cmd_call 0x18])
  /\ outcome (LCD_SCROLL_RIGHT s bus h) = (Some tt, [cmd_call 0x1C])
  /\ (forall n : nat,
        outcome (times n (LCD_SCROLL_LEFT s) bus h) =
          (Some tt, repeat (cmd_call 0x18) n)
        /\ outcome (times n (LCD_SCROLL_RIGHT s) bus h) =
          (Some tt, repeat (cmd_call 0x1C) n)).
Proof.
  unfold LCD_SCROLL_LEFT, LCD_SCROLL_RIGHT, LCD_MOVE_LEFT, LCD_MOVE_RIGHT.
  rewrite !LCD_SEND_CMD_run.
  split; [reflexivity|]. split; [reflexivity|].
  intros n. now rewrite !times_LCD_SEND_CMD_run.
Qed.

(** C9.  Every transmission issued by any driver operation, on any bus
    and after any history, carries exactly four bytes, with size 4, to the
    device address 0x4E, and its frame is shaped: the upper nibble with
    enable high, the same nibble with enable low, the lower nibble with
    enable high, the same nibble with enable low. *)
Theorem every_transmission_is_a_shaped_frame
    (s : bool) (op : operation) (bus : Bus) (h : list event) :
  forallb transmission_ok (snd (exec s op bus h)) = true.
Proof.
  revert bus h. change (emits_only transmission_ok (exec s op)).
  destruct op; simpl exec.
  - apply shaped_LCD_SEND_CMD.
  - apply shaped_LCD_SEND_DATA.
  - unfold LCD_CLEAR. apply emits_only_bind;
      [apply shaped_LCD_SEND_CMD | intros _; apply shaped_LCD_CLEAR_loop].
  - unfold LCD_SET_CURSOR. apply shaped_LCD_SEND_CMD.
  - apply shaped_LCD_INIT.
  - apply shaped_LCD_SEND_STRING.
  - apply shaped_LCD_SEND_CMD.
  - apply shaped_LCD_SEND_CMD.
Qed.

(** C10.  For every input byte, each byte of the frame [LCD_SEND_CMD] or
    [LCD_SEND_DATA] transmits has, in its low four bits, exactly the
    control mask of its slot (0x0C, 0x08, 0x0C, 0x08 for a command, 0x0D,
    0x09, 0x0D, 0x09 for data) and, in its high four bits, exactly the
    payload nibble of its slot. *)
Theorem payload_and_control_bits_do_not_overlap
    (s : bool) (b : Z) (bus : Bus) (h : list event) :
  (exists f,
      frames_of (snd (LCD_SEND_CMD s b bus h)) = [f]
      /\ Forall2 slot_ok f (combine (payload_nibbles b) command_masks))
  /\
  (exists f,
      frames_of (snd (LCD_SEND_DATA s b bus h)) = [f]
      /\ Forall2 slot_ok f (combine (payload_nibbles b) data_masks)).
Proof.
  rewrite LCD_SEND_CMD_run, LCD_SEND_DATA_run.
  destruct (upper_nibble_high b) as [Hu0 Hu].
  destruct (lower_nibble_high b) as [Hl0 Hl].
  split.
  - exists (spec_command_frame b). split; [reflexivity|].
    unfold spec_command_frame, payload_nibbles, command_masks. simpl combine.
    repeat (apply Forall2_cons || apply Forall2_nil);
      apply slot_ok_lor; auto.
  - exists (spec_data_frame b). split; [reflexivity|].
    unfold spec_data_frame, payload_nibbles, data_masks. simpl combine.
    repeat (apply Forall2_cons || apply Forall2_nil);
      apply slot_ok_lor; auto.
Qed.

(** * Further properties of the driver *)

(** ** Laws of sequencing, run by run *)

Section SequencingLaws.

Lemma bind_ext {A B} (m m' : M A) (k k' : A -> M B)
    (bus : Bus) (h : list event) :
  (forall bus h, m bus h = m' bus h) ->
  (forall a bus h, k a bus h = k' a bus h) ->
  bind m k bus h = bind m' k' bus h.
Proof.
  intros Hm Hk. unfold bind. rewrite Hm.
  destruct (m' bus h) as [[a|] e1]; [|reflexivity].
  now rewrite Hk.
Qed.

Lemma bind_ret_l {B} (k : M B) (bus : Bus) (h : list event) :
  bind (ret tt) (fun _ => k) bus h = k bus h.
Proof.
  unfold bind, ret. rewrite app_nil_r.
  now destruct (k bus h) as [b e2].
Qed.

Lemma bind_assoc {A B C} (m : M A) (f : A -> M B) (g : B -> M C)
    (bus : Bus) (h : list event) :
  bind (bind m f) g bus h = bind m (fun a => bind (f a) g) bus h.
Proof.
  unfold bind.
  destruct (m bus h) as [[a|] e1]; [|reflexivity].
  destruct (f a bus (h ++ e1)) as [[b|] e2]; [|reflexivity].
  rewrite <- app_assoc.
  destruct (g b bus (h ++ e1 ++ e2)) as [c e3].
  now rewrite app_assoc.
Qed.

End SequencingLaws.

(** ** Arguments that differ by a multiple of 256 *)

Section LowBits.

Variable s : bool.

Lemma LCD_SEND_CMD_mod (x y : Z) (bus : Bus) (h : list event) :
  x mod 256 = y mod 256 ->
  LCD_SEND_CMD s x bus h = LCD_SEND_CMD s y bus h.
Proof.
  intros Hxy. rewrite !LCD_SEND_CMD_run.
  now rewrite <- (spec_command_frame_mod x), Hxy, spec_command_frame_mod.
Qed.

Lemma LCD_SEND_DATA_mod (x y : Z) (bus : Bus) (h : list event) :
  x mod 256 = y mod 256 ->
  LCD_SEND_DATA s x bus h = LCD_SEND_DATA s y bus h.
Proof.
  intros Hxy. rewrite !LCD_SEND_DATA_run.
  now rewrite <- (spec_data_frame_mod x), Hxy, spec_data_frame_mod.
Qed.

Lemma lor_mod_256 (x y m : Z) :
  x mod 256 = y mod 256 -> (Z.lor x m) mod 256 = (Z.lor y m) mod 256.
Proof.
  intros Hxy. rewrite !mod_256_land, !Z.land_lor_distr_l.
  now rewrite <- !mod_256_land, Hxy.
Qed.

Lemma add_multiple_mod_256 (x k : Z) : (x + 256 * k) mod 256 = x mod 256.
Proof. rewrite (Z.mul_comm 256 k). apply Z_mod_plus_full. Qed.

End LowBits.


(** X3.  Only the low eight bits of an argument reach the bus: a command
    byte, a data byte or a cursor column changed by a multiple of 256
    gives the same run. *)
Theorem arguments_wrap_modulo_256
    (s : bool) (b k row : Z) (bus : Bus) (h : list event) :
  LCD_SEND_CMD s (b + 256 * k) bus h = LCD_SEND_CMD s b bus h
  /\ LCD_SEND_DATA s (b + 256 * k) bus h = LCD_SEND_DATA s b bus h
  /\ LCD_SET_CURSOR s row (b + 256 * k) bus h = LCD_SET_CURSOR s row b bus h.
Proof.
  pose proof (add_multiple_mod_256 b k) as Hmod.
  split; [now apply LCD_SEND_CMD_mod|].
  split; [now apply LCD_SEND_DATA_mod|].
  unfold LCD_SET_CURSOR.
  destruct (row =? 0); [|destruct (row =? 1)];
    apply LCD_SEND_CMD_mod; auto using lor_mod_256.
Qed.

(** X4.  [LCD_SET_CURSOR] does not check its column against the width of
    a row: in row 0 a column with bit 6 set addresses row 1, and a column
    that already carries 0xC0 gives the same command in every row. *)
Theorem LCD_SET_CURSOR_no_column_check
    (s : bool) (row col : Z) (bus : Bus) (h : list event) :
  LCD_SET_CURSOR s 0 (Z.lor col 0x40) bus h = LCD_SET_CURSOR s 1 col bus h
  /\ LCD_SET_CURSOR s row (Z.lor col 0xC0) bus h =
     LCD_SET_CURSOR s 1 col bus h.
Proof.
  unfold LCD_SET_CURSOR. split.
  - simpl. unfold LCD_CURSOR_ROW_FIRST, LCD_CURSOR_ROW_SECOND.
    now rewrite <- Z.lor_assoc.
  - unfold LCD_CURSOR_ROW_FIRST, LCD_CURSOR_ROW_SECOND.
    destruct (row =? 0); [|destruct (row =? 1)]; simpl;
      rewrite <- ?Z.lor_assoc; reflexivity.
Qed.

(** ** Signed and unsigned plain [char] *)

Section Signedness.

Lemma LCD_SEND_CMD_any_char (b : Z) (bus : Bus) (h : list event) :
  LCD_SEND_CMD true b bus h = LCD_SEND_CMD false b bus h.
Proof. now rewrite !LCD_SEND_CMD_run. Qed.

Lemma LCD_SEND_DATA_any_char (b : Z) (bus : Bus) (h : list event) :
  LCD_SEND_DATA true b bus h = LCD_SEND_DATA false b bus h.
Proof. now rewrite !LCD_SEND_DATA_run. Qed.

Lemma LCD_CLEAR_loop_any_char (s1 s2 : bool) (fuel : nat) (i : Z)
    (bus : Bus) (h : list event) :
  0 <= i ->
  LCD_CLEAR_loop s1 fuel i bus h = LCD_CLEAR_loop s2 fuel i bus h.
Proof.
  revert i bus h. induction fuel as [|fuel IH]; intros i bus h Hi;
    [reflexivity|].
  simpl LCD_CLEAR_loop. unfold LCD_CLEAR_ROW_LENGTH.
  destruct (i <? 16) eqn:Hlt; [|reflexivity].
  apply Z.ltb_lt in Hlt.
  rewrite !(to_char_small _ (i + 1)) by lia.
  apply bind_ext.
  - intros bus' h'. now rewrite !LCD_SEND_DATA_run.
  - intros _ bus' h'. apply IH. lia.
Qed.

Lemma LCD_SEND_STRING_any_char (str : list Z) (bus : Bus) (h : list event) :
  LCD_SEND_STRING true str bus h = LCD_SEND_STRING false str bus h.
Proof.
  revert bus h. induction str as [|c str IH]; intros bus h; [reflexivity|].
  simpl. destruct (c =? 0); [reflexivity|].
  apply bind_ext; [apply LCD_SEND_DATA_any_char | intros _; exact IH].
Qed.

Lemma LCD_INIT_any_char (bus : Bus) (h : list event) :
  LCD_INIT true bus h = LCD_INIT false bus h.
Proof.
  unfold LCD_INIT.
  repeat lazymatch goal with
    | |- bind (HAL_Delay _) _ _ _ = _ =>
        apply bind_ext; [reflexivity | intros _ ? ?; cbv beta]
    | |- bind (LCD_SEND_CMD _ _) _ _ _ = _ =>
        apply bind_ext;
        [apply LCD_SEND_CMD_any_char | intros _ ? ?; cbv beta]
    end.
  apply LCD_SEND_CMD_any_char.
Qed.

End Signedness.

(** X2.  The driver behaves the same whether plain [char] is signed or
    unsigned on the target: every operation, on every bus and after every
    history, returns the same and emits the same events. *)
Theorem char_signedness_does_not_matter
    (op : operation) (bus : Bus) (h : list event) :
  exec true op bus h = exec false op bus h.
Proof.
  destruct op; simpl exec.
  - apply LCD_SEND_CMD_any_char.
  - apply LCD_SEND_DATA_any_char.
  - unfold LCD_CLEAR. apply bind_ext.
    + apply LCD_SEND_CMD_any_char.
    + intros _ bus' h'. apply LCD_CLEAR_loop_any_char. lia.
  - unfold LCD_SET_CURSOR. apply LCD_SEND_CMD_any_char.
  - apply LCD_INIT_any_char.
  - apply LCD_SEND_STRING_any_char.
  - apply LCD_SEND_CMD_any_char.
  - apply LCD_SEND_CMD_any_char.
Qed.

(** ** Strings *)

Section Strings.

Variable s : bool.

Lemma LCD_SEND_STRING_no_null (str : list Z) (bus : Bus) (h : list event) :
  Forall (fun c => c <> 0) str ->
  outcome (LCD_SEND_STRING s str bus h) = (None, map data_call str).
Proof.
  intros Hstr. revert h.
  induction Hstr as [|c str Hc _ IH]; intros h.
  - reflexivity.
  - simpl. apply Z.eqb_neq in Hc. rewrite Hc.
    destruct (outcome_data_then s c (LCD_SEND_STRING s str) bus h)
      as [h1 ->].
    destruct (outcome_inv _ _ _ (IH h1)) as [Hres Hcalls].
    now rewrite Hres, Hcalls.
Qed.


End Strings.

(** X5.  Sending a memory whose first cells [text] hold no null is
    sending [text] as a string of its own and then sending what follows
    it, with the same answers of the bus: [LCD_SEND_STRING] on a
    concatenation is the sequence of the two calls. *)
Theorem LCD_SEND_STRING_concatenation
    (s : bool) (text tail : list Z) (bus : Bus) (h : list event) :
  Forall (fun c => c <> 0) text ->
  LCD_SEND_STRING s (text ++ tail) bus h =
  (LCD_SEND_STRING s (text ++ [0]) ;; LCD_SEND_STRING s tail) bus h.
Proof.
  intros Htext. revert bus h.
  induction Htext as [|c text Hc _ IH]; intros bus h.
  - simpl. now rewrite bind_ret_l.
  - simpl. apply Z.eqb_neq in Hc. rewrite Hc.
    rewrite bind_assoc. apply bind_ext; [reflexivity|].
    intros _ bus' h'. apply IH.
Qed.

(** Witness of X5: "Hi" followed by the string "!". *)
Lemma LCD_SEND_STRING_concatenation_witness :
  Forall (fun c => c <> 0) [0x48; 0x69]
  /\ LCD_SEND_STRING false ([0x48; 0x69] ++ [0x21; 0])
       (bus_failing_at 1 HAL_BUSY) [] =
     (LCD_SEND_STRING false ([0x48; 0x69] ++ [0]) ;;
      LCD_SEND_STRING false [0x21; 0]) (bus_failing_at 1 HAL_BUSY) [].
Proof.
  assert (Hnz : Forall (fun c => c <> 0) [0x48; 0x69])
    by (repeat constructor; discriminate).
  split; [exact Hnz|].
  exact (LCD_SEND_STRING_concatenation false [0x48; 0x69] [0x21; 0]
           (bus_failing_at 1 HAL_BUSY) [] Hnz).
Defined.

(** X6.  [LCD_SEND_STRING] has no bound but the null: on a memory none of
    whose cells is zero it transmits one data frame for every cell and
    then reads past the last cell, where the model has no result. *)
Theorem LCD_SEND_STRING_without_null_overruns
    (s : bool) (str : list Z) (bus : Bus) (h : list event) :
  Forall (fun c => c <> 0) str ->
  fst (LCD_SEND_STRING s str bus h) = None
  /\ calls (LCD_SEND_STRING s str bus h) = map data_call str.
Proof.
  intros Hstr. apply outcome_inv. now apply LCD_SEND_STRING_no_null.
Qed.

(** Witness of X6: the two cells 'A', 'B' and nothing after them. *)
Lemma LCD_SEND_STRING_without_null_overruns_witness :
  Forall (fun c => c <> 0) [0x41; 0x42]
  /\ fst (LCD_SEND_STRING false [0x41; 0x42] (bus_always HAL_OK) []) = None.
Proof.
  assert (Hnz : Forall (fun c => c <> 0) [0x41; 0x42])
    by (repeat constructor; discriminate).
  split; [exact Hnz|].
  exact (proj1 (LCD_SEND_STRING_without_null_overruns false [0x41; 0x42]
                  (bus_always HAL_OK) [] Hnz)).
Defined.



(** ** Invariants of every event *)

Section EventInvariant.

Variable P : event -> bool.
Variable s : bool.

Hypothesis P_delay : forall ms, P (EvDelay ms) = true.
Hypothesis P_command :
  forall b st, P (EvTransmit 0x4E (spec_command_frame b) 4 100 st) = true.
Hypothesis P_data :
  forall b st, P (EvTransmit 0x4E (spec_data_frame b) 4 100 st) = true.

Lemma invariant_HAL_Delay (ms : Z) : emits_only P (HAL_Delay ms).
Proof. intros bus h. simpl. now rewrite P_delay. Qed.

Lemma invariant_LCD_SEND_CMD (b : Z) : emits_only P (LCD_SEND_CMD s b).
Proof.
  intros bus h. rewrite LCD_SEND_CMD_run. simpl. now rewrite P_command.
Qed.

Lemma invariant_LCD_SEND_DATA (b : Z) : emits_only P (LCD_SEND_DATA s b).
Proof.
  intros bus h. rewrite LCD_SEND_DATA_run. simpl. now rewrite P_data.
Qed.

Lemma invariant_LCD_CLEAR_loop (fuel : nat) (i : Z) :
  emits_only P (LCD_CLEAR_loop s fuel i).
Proof.
  revert i. induction fuel as [|fuel IH]; intros i; simpl.
  - apply emits_only_stuck.
  - destruct (i <? LCD_CLEAR_ROW_LENGTH).
    + apply emits_only_bind;
        [apply invariant_LCD_SEND_DATA | intros _; apply IH].
    + apply emits_only_ret.
Qed.

Lemma invariant_LCD_SEND_STRING (str : list Z) :
  emits_only P (LCD_SEND_STRING s str).
Proof.
  induction str as [|c str IH]; simpl.
  - apply emits_only_stuck.
  - destruct (c =? 0).
    + apply emits_only_ret.
    + apply emits_only_bind;
        [apply invariant_LCD_SEND_DATA | intros _; exact IH].
Qed.

Lemma invariant_LCD_INIT : emits_only P (LCD_INIT s).
Proof.
  unfold LCD_INIT.
  repeat lazymatch goal with
    | |- emits_only _ (bind (HAL_Delay _) _) =>
        apply emits_only_bind; [apply invariant_HAL_Delay | intros _]
    | |- emits_only _ (bind (LCD_SEND_CMD _ _) _) =>
        apply emits_only_bind; [apply invariant_LCD_SEND_CMD | intros _]
    end.
  apply invariant_LCD_SEND_CMD.
Qed.

Lemma invariant_exec (op : operation) : emits_only P (exec s op).
Proof.
  destruct op; simpl exec.
  - apply invariant_LCD_SEND_CMD.
  - apply invariant_LCD_SEND_DATA.
  - unfold LCD_CLEAR. apply emits_only_bind;
      [apply invariant_LCD_SEND_CMD | intros _; apply invariant_LCD_CLEAR_loop].
  - unfold LCD_SET_CURSOR. apply invariant_LCD_SEND_CMD.
  - apply invariant_LCD_INIT.
  - apply invariant_LCD_SEND_STRING.
  - apply invariant_LCD_SEND_CMD.
  - apply invariant_LCD_SEND_CMD.
Qed.

End EventInvariant.

Section FixedBits.

Lemma fixed_bits_command_frame (b : Z) :
  forallb fixed_bits_ok (spec_command_frame b) = true.
Proof.
  rewrite <- spec_command_frame_mod.
  apply (forall_bytes
           (fun x => forallb fixed_bits_ok (spec_command_frame x)));
    [vm_compute; reflexivity | apply mod_256_byte].
Qed.

Lemma fixed_bits_data_frame (b : Z) :
  forallb fixed_bits_ok (spec_data_frame b) = true.
Proof.
  rewrite <- spec_data_frame_mod.
  apply (forall_bytes
           (fun x => forallb fixed_bits_ok (spec_data_frame x)));
    [vm_compute; reflexivity | apply mod_256_byte].
Qed.

Lemma cursor_address (x : Z) :
  0 <= x < 64 ->
  (Z.lor x 0x80) mod 256 = 0x80 + x /\ (Z.lor x 0xC0) mod 256 = 0xC0 + x.
Proof.
  intros Hx.
  pose (ok := fun x =>
    if x <? 64
    then ((Z.lor x 0x80) mod 256 =? 0x80 + x)
         && ((Z.lor x 0xC0) mod 256 =? 0xC0 + x)
    else true).
  assert (Hok : ok x = true)
    by (apply forall_bytes; [vm_compute; reflexivity | lia]).
  unfold ok in Hok.
  destruct (x <? 64) eqn:Hlt; [|apply Z.ltb_ge in Hlt; lia].
  apply andb_true_iff in Hok as [H0 H1].
  now apply Z.eqb_eq in H0, H1.
Qed.

End FixedBits.

(** X8.  Every transmission of every operation is issued with the
    timeout [TIMEOUT] (100): no operation ever waits on the bus without a
    bound. *)
Theorem every_transmission_has_the_timeout
    (s : bool) (op : operation) (bus : Bus) (h : list event) :
  forallb timeout_ok (snd (exec s op bus h)) = true.
Proof.
  revert bus h. change (emits_only timeout_ok (exec s op)).
  apply invariant_exec; reflexivity.
Qed.

(** X9.  In every byte of every frame any operation transmits, bit 3 is
    set and bit 1 is clear, whatever the command or data byte: the four
    control masks only ever vary the enable and register-select bits. *)
Theorem fixed_bits_of_every_transmitted_byte
    (s : bool) (op : operation) (bus : Bus) (h : list event) :
  forallb fixed_bits_event (snd (exec s op bus h)) = true.
Proof.
  revert bus h. change (emits_only fixed_bits_event (exec s op)).
  apply invariant_exec.
  - reflexivity.
  - intros b st. apply fixed_bits_command_frame.
  - intros b st. apply fixed_bits_data_frame.
Qed.

(** X10.  The loop of [LCD_CLEAR] ends by its own test: entered with its
    counter at [i], from 0 to 16, it returns after exactly 16 - i data
    writes of the space character, for a signed and for an unsigned
    counter, and any fuel above the number of iterations gives this same
    run. *)
Theorem LCD_CLEAR_loop_terminates
    (s : bool) (fuel : nat) (i : Z) (bus : Bus) (h : list event) :
  0 <= i <= 16 -> (Z.to_nat (16 - i) < fuel)%nat ->
  outcome (LCD_CLEAR_loop s fuel i bus h) =
  (Some tt, repeat (data_call 0x20) (Z.to_nat (16 - i))).
Proof. apply LCD_CLEAR_loop_run. Qed.

(** Witness of X10: the counter at 14, with fuel for a hundred tests. *)
Lemma LCD_CLEAR_loop_terminates_witness :
  0 <= 14 <= 16 /\ (Z.to_nat (16 - 14) < 100)%nat
  /\ outcome (LCD_CLEAR_loop true 100 14 (bus_always HAL_OK) []) =
     (Some tt, [data_call 0x20; data_call 0x20]).
Proof.
  assert (Hi : 0 <= 14 <= 16) by lia.
  assert (Hfuel : (Z.to_nat (16 - 14) < 100)%nat) by (vm_compute; lia).
  split; [exact Hi|]. split; [exact Hfuel|].
  exact (LCD_CLEAR_loop_terminates true 100 14 (bus_always HAL_OK) []
           Hi Hfuel).
Defined.

(** X11.  The settle times of [LCD_INIT]: it waits 40 before its first
    command, and the nine commands are followed, before the next
    transmission, by waits of 5, 1, 10, 10, 1, 1, 2, 1 and, after the
    last one, 0.  Every command but the last is given time to settle, the
    clear-display command twice as long as its neighbours. *)
Theorem LCD_INIT_settle_times (s : bool) (bus : Bus) (h : list event) :
  wait_before_transmit (calls (LCD_INIT s bus h)) = 40
  /\ settle_times (calls (LCD_INIT s bus h)) = [5; 1; 10; 10; 1; 1; 2; 1; 0].
Proof.
  destruct (outcome_inv _ _ _ (LCD_INIT_run s bus h)) as [_ Hcalls].
  rewrite Hcalls. split; reflexivity.
Qed.

(** X12.  Operations compose without interfering: when an operation
    returns, the calls of the operation run after it are those it issues
    when run alone, so the calls of the sequence are the calls of the
    first followed by the calls of the second. *)
Theorem operations_compose
    (s : bool) (op1 op2 : operation) (bus : Bus) (h : list event) :
  fst (exec s op1 bus h) = Some tt ->
  outcome ((exec s op1 ;; exec s op2) bus h) =
  (fst (exec s op2 bus h),
   calls (exec s op1 bus h) ++ calls (exec s op2 bus h)).
Proof.
  intros Hret. unfold bind.
  destruct (exec s op1 bus h) as [[[]|] e1]; simpl in Hret;
    [|discriminate].
  pose proof (oblivious_exec s op2 bus bus (h ++ e1) h) as Hobl.
  destruct (exec s op2 bus (h ++ e1)) as [r2 e2].
  unfold outcome, calls in *. simpl in *.
  injection Hobl as Hres Hcalls.
  now rewrite map_app, Hres, Hcalls.
Qed.

(** Witness of X12: a cursor move, then a string. *)
Lemma operations_compose_witness :
  fst (exec false (OpSetCursor 1 3) (bus_always HAL_OK) []) = Some tt
  /\ outcome ((exec false (OpSetCursor 1 3) ;;
               exec false (OpSendString [0x4F; 0x4B; 0]))
                (bus_always HAL_OK) []) =
     (Some tt, [cmd_call 0xC3; data_call 0x4F; data_call 0x4B]).
Proof.
  assert (Hret : fst (exec false (OpSetCursor 1 3) (bus_always HAL_OK) [])
                 = Some tt) by reflexivity.
  split; [exact Hret|].
  exact (operations_compose false (OpSetCursor 1 3)
           (OpSendString [0x4F; 0x4B; 0]) (bus_always HAL_OK) [] Hret).
Defined.

(** X13.  Two commands give the same transmission exactly when their
    bytes agree on the low eight bits, likewise two data bytes, and the
    transmission of a command is never that of a data byte. *)
Theorem transmissions_identify_their_byte
    (s : bool) (a b : Z) (bus bus' : Bus) (h h' : list event) :
  (calls (LCD_SEND_CMD s a bus h) = calls (LCD_SEND_CMD s b bus' h')
   <-> a mod 256 = b mod 256)
  /\ (calls (LCD_SEND_DATA s a bus h) = calls (LCD_SEND_DATA s b bus' h')
      <-> a mod 256 = b mod 256)
  /\ calls (LCD_SEND_CMD s a bus h) <> calls (LCD_SEND_DATA s b bus' h').
Proof.
  rewrite !LCD_SEND_CMD_run, !LCD_SEND_DATA_run. unfold calls.
  cbn [snd map call_of].
  change (CallTransmit 78 (spec_command_frame a) 4 100) with (cmd_call a).
  change (CallTransmit 78 (spec_command_frame b) 4 100) with (cmd_call b).
  change (CallTransmit 78 (spec_data_frame a) 4 100) with (data_call a).
  change (CallTransmit 78 (spec_data_frame b) 4 100) with (data_call b).
  split; [|split].
  - split.
    + intros H. apply cmd_call_inj. congruence.
    + intros H. unfold cmd_call.
      now rewrite <- (spec_command_frame_mod a), H, spec_command_frame_mod.
  - split.
    + intros H. apply data_call_inj. congruence.
    + intros H. unfold data_call.
      now rewrite <- (spec_data_frame_mod a), H, spec_data_frame_mod.
  - intros H. apply (cmd_call_not_data_call a b). congruence.
Qed.

(** Witness of X13: the bytes 0x141 and 0x41. *)
Lemma transmissions_identify_their_byte_witness :
  0x141 mod 256 = 0x41 mod 256
  /\ calls (LCD_SEND_CMD false 0x141 (bus_always HAL_OK) []) =
     calls (LCD_SEND_CMD false 0x41 (bus_always HAL_ERROR) []).
Proof.
  assert (Hmod : 0x141 mod 256 = 0x41 mod 256) by reflexivity.
  split; [exact Hmod|].
  exact (proj2 (proj1 (transmissions_identify_their_byte false 0x141 0x41
                         (bus_always HAL_OK) (bus_always HAL_ERROR) [] []))
           Hmod).
Defined.

(** X14.  For a column from 0 to 63 the single call of [LCD_SET_CURSOR]
    is the transmission of the command 0x80 + col in row 0 and of the
    command 0xC0 + col in row 1; on the two falling edges of enable of its
    frame the controller latches that byte, with register select 0. *)
Theorem LCD_SET_CURSOR_address
    (s : bool) (col : Z) (bus : Bus) (h : list event) :
  0 <= col < 64 ->
  (calls (LCD_SET_CURSOR s 0 col bus h) = [cmd_call (0x80 + col)]
   /\ calls (LCD_SET_CURSOR s 1 col bus h) = [cmd_call (0xC0 + col)])
  /\
  (map decode_call (calls (LCD_SET_CURSOR s 0 col bus h)) =
     [Some (false, 0x80 + col)]
   /\ map decode_call (calls (LCD_SET_CURSOR s 1 col bus h)) =
      [Some (false, 0xC0 + col)]).
Proof.
  intros Hcol. destruct (cursor_address col Hcol) as [H0 H1].
  unfold LCD_SET_CURSOR.
  change (0 =? 0) with true. change (1 =? 0) with false.
  change (1 =? 1) with true. cbv beta iota zeta.
  unfold LCD_CURSOR_ROW_FIRST, LCD_CURSOR_ROW_SECOND.
  rewrite !LCD_SEND_CMD_run. unfold calls.
  cbn [snd map call_of decode_call].
  split.
  - unfold cmd_call.
    rewrite <- (spec_command_frame_mod (Z.lor col 128)), H0.
    rewrite <- (spec_command_frame_mod (Z.lor col 192)), H1.
    split; reflexivity.
  - now rewrite !frame_payload_command, H0, H1.
Qed.

(** Witness of X14: column 5. *)
Lemma LCD_SET_CURSOR_address_witness :
  0 <= 5 < 64
  /\ map decode_call (calls (LCD_SET_CURSOR false 1 5 (bus_always HAL_OK) []))
     = [Some (false, 0xC5)].
Proof.
  assert (Hcol : 0 <= 5 < 64) by lia.
  split; [exact Hcol|].
  exact (proj2 (proj2 (LCD_SET_CURSOR_address false 5 (bus_always HAL_OK) []
                         Hcol))).
Defined.
